(** * reactTutorial: the user state duck, the webpack output file names and
    the production build script.

    Sources embedded here:
    - part4/README.MD: [src/state/user/InitialUserState.js] and
      [src/state/user/index.js] ([SET_USER_DATA], [setUserData], [signIn] and
      the default-exported user reducer);
    - part1/webpack.config.js and part3/README.MD: the [output.filename]
      templates of the development and production configurations, and the
      [build:prod] npm script;
    - part4/README.MD and part5/README.MD: the store set-up, [signOut], the
      [Home], [SignIn] and [SignInForm] components, [Navbar], [Container]
      and [constants/Roles.js]. *)

From Stdlib Require Import Ascii String.
From stdpp Require Import base gmap strings list.

(* ===================================================================== *)
(** ** JavaScript values, objects and the object heap *)
(* ===================================================================== *)

Module JS.

(** The primitive values the user duck stores in its fields. *)
Inductive jsval :=
| VNull
| VNum (z : Z)
| VStr (s : string).

(** A plain object: its own enumerable properties. *)
Abbreviation obj := (gmap string jsval).

(** Object identity: the reducer returns either its input object or a new
    one, so objects live in a heap addressed by locations. *)
Abbreviation loc := positive.
Abbreviation heap := (gmap loc obj).

(** [Object.assign({}, target, source)]: a fresh object holding the
    properties of [target], overwritten by those of [source]; a missing
    ([undefined]) source contributes nothing. stdpp's [∪] is left-biased. *)
Definition object_assign_fresh (target : obj) (source : option obj) : obj :=
  match source with
  | Some s => s ∪ target
  | None => target
  end.

(** Allocate a new object in the heap. *)
Definition alloc (h : heap) (o : obj) : loc * heap :=
  let l := fresh (dom h) in (l, <[l := o]> h).

End JS.

Import JS.

(* ===================================================================== *)
(** ** src/state/user: InitialUserState, actions and reducer *)
(* ===================================================================== *)

Module User.

(** [export default { id: null, firstName: null, lastName: null,
    username: null, email: null, role: 'GUEST' }] *)
Definition InitialUserState : obj :=
  <["id" := VNull]> (<["firstName" := VNull]> (<["lastName" := VNull]>
  (<["username" := VNull]> (<["email" := VNull]> {["role" := VStr "GUEST"]})))).

(** The module-level object [InitialUserState] is allocated once, when the
    module is loaded; [init_heap] is the heap right after that. *)
Definition initial_loc : loc := 1%positive.
Definition init_heap : heap := {[initial_loc := InitialUserState]}.

(** [export const SET_USER_DATA = 'SET_USER_DATA';] *)
Definition SET_USER_DATA : string := "SET_USER_DATA".

(** A Redux action [{ type, userData }]; [userData] is absent
    ([undefined]) on actions of other ducks. *)
Record action := mk_action { type : string; userData : option obj }.

(** [setUserData = (userData) => ({ type: SET_USER_DATA, userData })] *)
Definition setUserData (ud : obj) : action := mk_action SET_USER_DATA (Some ud).

(** The default export:
<<
    (state = InitialUserState, action) => {
        switch(action.type) {
            case SET_USER_DATA: {
                const userData = action.userData;
                return Object.assign({}, state, userData );
            }
            default:
                return state;
        }
    }
>>
    [state] is [None] when Redux passes [undefined], which selects the
    default parameter. The result is the location of the returned object
    and the heap after the call. *)
Definition user_reducer (h : heap) (state : option loc) (a : action) : loc * heap :=
  let st := match state with Some l => l | None => initial_loc end in
  if String.eqb (type a) SET_USER_DATA then
    let cur := match h !! st with Some o => o | None => ∅ end in
    alloc h (object_assign_fresh cur (userData a))
  else (st, h).

(** The credentials built by [SignIn.onSignIn]: [{ username, password }],
    both strings taken from the sign-in form's state. *)
Record credentials := mk_credentials { username : string; password : string }.

(** A rejected promise carries an [Error]; we keep its message. *)
Inductive settlement :=
| Resolved
| Rejected (message : string).

(** What the [setTimeout] callback does when the timer fires: the actions
    it passes to [dispatch], in order, and how it settles the promise. *)
Record callback_effect := mk_effect { dispatched : list action; settled : settlement }.

(** A promise whose executor scheduled [callback] after [delay] ms; it is
    pending until then. *)
Record timed_promise := mk_timed { delay : nat; callback : unit -> callback_effect }.

(** The hard-coded user record passed to [setUserData] by [signIn]. *)
Definition member_user : obj :=
  <["id" := VNum 1]> (<["firstName" := VStr "Tom"]> (<["lastName" := VStr "Jones"]>
  (<["username" := VStr "tomjones"]> (<["email" := VStr "tomjones@gmail.com"]>
  {["role" := VStr "MEMBER"]})))).

(** [signIn = (credentials) => (dispatch) => new Promise((resolve, reject) =>
      setTimeout(() => { if (credentials.username !== 'fail') {
        dispatch(setUserData({...})); resolve(); }
      else { reject(Error('Username or password was invalid')); } }, 2000))]
    The thunk's [dispatch] argument is recorded in [dispatched]. *)
Definition signIn (c : credentials) : timed_promise :=
  mk_timed 2000 (fun _ =>
    if negb (String.eqb (username c) "fail") then
      mk_effect [setUserData member_user] Resolved
    else
      mk_effect [] (Rejected "Username or password was invalid")).

(** The property [k] of [action.userData], [undefined] when either is absent. *)
Definition userData_field (a : action) (k : string) : option jsval :=
  match userData a with Some u => u !! k | None => None end.

(** Running the thunk to the point where its timer has fired. *)
Definition run_signIn (c : credentials) : callback_effect := callback (signIn c) tt.

End User.

Import User.

Example reducer_init_sample :
  user_reducer init_heap None (mk_action "@@redux/INIT" None) = (initial_loc, init_heap).
Proof. reflexivity. Qed.

Example signIn_sample :
  settled (run_signIn (mk_credentials "fail" "x")) = Rejected "Username or password was invalid".
Proof. reflexivity. Qed.

(* ===================================================================== *)
(** ** Output file names: webpack's templated paths *)
(* ===================================================================== *)

Module OutputNames.

Local Open Scope string_scope.

(** The values a templated path is filled with for one chunk: its name, its
    id, the hash of the whole compilation ([[hash]], part3/README.MD line
    171) and the hash of the chunk's own code ([[chunkHash]], line 175). *)
Record path_data := mk_path_data {
  pd_name : string; pd_id : string; pd_hash : string; pd_chunkhash : string }.

Definition ascii_lower (c : ascii) : ascii :=
  let n := Ascii.nat_of_ascii c in
  if ((65 <=? n) && (n <=? 90))%nat then Ascii.ascii_of_nat (n + 32)%nat else c.

Fixpoint string_lower (s : string) : string :=
  match s with
  | EmptyString => EmptyString
  | String c r => String (ascii_lower c) (string_lower r)
  end.

Fixpoint digits_value (s : string) (acc : nat) : option nat :=
  match s with
  | EmptyString => Some acc
  | String c r =>
      let n := Ascii.nat_of_ascii c in
      if ((48 <=? n) && (n <=? 57))%nat then digits_value r (acc * 10 + (n - 48))%nat else None
  end.

(** The [(\d+)] group of a placeholder such as [[chunkhash:8]]. *)
Definition parse_length (s : string) : option nat :=
  match s with EmptyString => None | _ => digits_value s 0 end.

(** Split a tag at its first [':']. *)
Fixpoint split_colon (t : string) : string * option string :=
  match t with
  | EmptyString => (EmptyString, None)
  | String c r =>
      if Ascii.eqb c ":"%char then (EmptyString, Some r)
      else let '(k, l) := split_colon r in (String c k, l)
  end.

(** [[hash]], [[hash:n]], [[chunkhash]], [[chunkhash:n]], [[id]] and
    [[name]], matched case-insensitively as the [/gi] regular expressions of
    webpack 2's TemplatedPathPlugin do; [:n] keeps the first [n]
    characters. Any other bracketed text is left as it is. *)
Definition render_tag (pd : path_data) (t : string) : string :=
  let literal := String "["%char (t ++ "]") in
  let '(key, len) := split_colon (string_lower t) in
  let cut (v : string) :=
    match len with
    | None => v
    | Some d => match parse_length d with Some n => substring 0 n v | None => literal end
    end in
  if String.eqb key "hash" then cut (pd_hash pd)
  else if String.eqb key "chunkhash" then cut (pd_chunkhash pd)
  else if String.eqb key "name" then
    match len with None => pd_name pd | Some _ => literal end
  else if String.eqb key "id" then
    match len with None => pd_id pd | Some _ => literal end
  else literal.

(** Scan the template left to right; [tag] is the text read since an
    unclosed ['['], if any. *)
Fixpoint render_go (pd : path_data) (s : string) (tag : option string) : string :=
  match s with
  | EmptyString =>
      match tag with None => EmptyString | Some t => String "["%char t end
  | String c r =>
      match tag with
      | None =>
          if Ascii.eqb c "["%char then render_go pd r (Some EmptyString)
          else String c (render_go pd r None)
      | Some t =>
          if Ascii.eqb c "]"%char then render_tag pd t ++ render_go pd r None
          else render_go pd r (Some (t ++ String c EmptyString))
      end
  end.

Definition render_path (template : string) (pd : path_data) : string :=
  render_go pd template None.

(** The parts of a configuration that name emitted files: the entry chunks
    (in the order of the merged [entry] object), [output.filename], and the
    [filename] given to HtmlWebpackPlugin. *)
Record output_config := mk_output_config {
  entries : list string; filename : string; html_filename : string }.

(** part1/webpack.config.js *)
Definition part1_config : output_config :=
  mk_output_config ["app"] "[name].[hash].js" "index.html".

(** config/webpack.development.config.js merged with the base config,
    whose [entry] contributes [vendor] (part3/README.MD). *)
Definition development_config : output_config :=
  mk_output_config ["vendor"; "app"] "[name].[hash].js" "index.html".

(** config/webpack.production.config.js merged with the base config. *)
Definition production_config : output_config :=
  mk_output_config ["vendor"; "app"] "[name].[chunkHash:8].js" "index.html".

(** The names of the files a build emits for its entry chunks and its HTML
    page, for a compilation hash [h] and per-chunk ids and hashes. *)
Definition emitted_names (cfg : output_config) (h : string)
    (ids chunkhashes : string -> string) : list string :=
  app (map (fun n => render_path (filename cfg) (mk_path_data n (ids n) h (chunkhashes n)))
           (entries cfg))
      [html_filename cfg].

(** [needle] occurs in [hay]. *)
Fixpoint contains (needle hay : string) : bool :=
  String.prefix needle hay ||
  match hay with EmptyString => false | String _ r => contains needle r end.

End OutputNames.

Import OutputNames.

Example production_name_sample :
  render_path (filename production_config)
    (mk_path_data "vendor" "2" "0123456789abcdef" "fedcba9876543210")
  = "vendor.fedcba98.js".
Proof. reflexivity. Qed.

Example development_name_sample :
  emitted_names development_config "0123abcd" (fun _ => "0") (fun _ => "ffff")
  = ["vendor.0123abcd.js"; "app.0123abcd.js"; "index.html"].
Proof. reflexivity. Qed.

(* ===================================================================== *)
(** ** The build:prod script *)
(* ===================================================================== *)

Module BuildScript.

Local Open Scope string_scope.

(** The files under the app root: path to contents. *)
Abbreviation fs := (gmap string string).

Definition under_dist (p : string) : bool := String.prefix "dist/" p.

(** [rm -rf ./dist] *)
Definition rm_rf_dist (f : fs) : fs := filter (fun kv => under_dist kv.1 = false) f.

(** What a webpack run does to the file tree: the files it writes,
    relative to [output.path = ../dist], in order (none when compile
    errors stop emission under NoErrorsPlugin; some, when an error arises
    while emitting), and the exit status it ends with (webpack 2 exits with
    2 when the compilation has errors, 0 otherwise). *)
Record webpack_outcome := mk_webpack_outcome {
  written : list (string * string); exit_status : nat }.

Definition emit (f : fs) (files : list (string * string)) : fs :=
  foldl (fun acc nc => <["dist/" ++ nc.1 := nc.2]> acc) f files.

(** [rm -rf ./dist; NODE_ENV=production node ... webpack --config
    ./config/webpack.production.config.js]: [;] runs webpack whatever
    [rm] did, and the script's exit status is webpack's. The webpack run
    is any function of the file tree it starts from. *)
Definition build_prod (webpack : fs -> webpack_outcome) (f : fs) : fs * nat :=
  let f1 := rm_rf_dist f in
  let r := webpack f1 in
  (emit f1 (written r), exit_status r).

End BuildScript.

Import BuildScript.

(* ===================================================================== *)
(** ** The application around the user duck: store, pages and navbar *)
(* ===================================================================== *)

Module App.

Local Open Scope string_scope.

(** part5/README.MD, [src/state/user/index.js]:
<<
    export const signOut = () => (dispatch) => new Promise((resolve, reject) =>
        setTimeout(() => { dispatch(setUserData(InitialUserState)); resolve(); }, 2000));
>> *)
Definition signOut : timed_promise :=
  mk_timed 2000 (fun _ => mk_effect [setUserData InitialUserState] Resolved).

Definition run_signOut : callback_effect := callback signOut tt.

(** The store's [user] slice: [combineReducers({ user })] hands
    [state.user] to the user reducer; [st_user] is where that object is. *)
Record store := mk_store { st_heap : heap; st_user : loc }.

Definition INIT : action := mk_action "@@redux/INIT" None.

(** [createStore(rootReducer, applyMiddleware(thunk))]: Redux dispatches
    its INIT action with an [undefined] state. *)
Definition create_store : store :=
  let '(l, h) := user_reducer init_heap None INIT in mk_store h l.

Definition dispatch (s : store) (a : action) : store :=
  let '(l, h) := user_reducer (st_heap s) (Some (st_user s)) a in mk_store h l.

Definition dispatch_all (s : store) (acts : list action) : store := foldl dispatch s acts.

(** What the application does to the store: a sign-in attempt (the
    [signIn] thunk run to its timer), a click on 'Sign Out' (the [signOut]
    thunk), or an action of some other part of the app. *)
Inductive event :=
| SignInAttempt (c : credentials)
| SignOutClick
| OtherAction (a : action).

Definition event_actions (e : event) : list action :=
  match e with
  | SignInAttempt c => dispatched (run_signIn c)
  | SignOutClick => dispatched run_signOut
  | OtherAction a => [a]
  end.

Definition run_events (s : store) (evs : list event) : store :=
  foldl (fun s e => dispatch_all s (event_actions e)) s evs.

(** [state.user] *)
Definition user_obj (s : store) : obj :=
  match st_heap s !! st_user s with Some o => o | None => ∅ end.

#[global] Instance jsval_eq_dec : EqDecision jsval.
Proof. solve_decision. Defined.

(** [===] on the values a property read can give ([None] is [undefined]). *)
Definition js_strict_eq (a b : option jsval) : bool := bool_decide (a = b).

(** [Home.render]: [{user.role === 'MEMBER' && <p>Welcome, {user.username}</p>}];
    [Some v] is the paragraph, showing the value [v] of [user.username]. *)
Definition home_welcome (user : obj) : option (option jsval) :=
  if js_strict_eq (user !! "role") (Some (VStr "MEMBER")) then Some (user !! "username")
  else None.

(** [SignIn.componentWillMount]:
    [if(this.props.user.role !== 'GUEST') browserHistory.push('/')]. *)
Definition signin_redirects (user : obj) : bool :=
  negb (js_strict_eq (user !! "role") (Some (VStr "GUEST"))).

(** A [<Link>] of the navbar: its text, its [to] prop and whether its
    [onClick] calls [onSignOut]. *)
Record nav_link := mk_link { label : string; link_to : option string; signs_out : bool }.

Definition member_links : list nav_link :=
  [mk_link "Home" (Some "/") false; mk_link "Sign Out" None true].

Definition guest_links : list nav_link :=
  [mk_link "Home" (Some "/") false; mk_link "Register" (Some "/register") false;
   mk_link "Sign In" (Some "/signIn") false].

(** [Navbar.createRoleBasedNavbar]: [switch(role) { case MEMBER: ...;
    case GUEST: default: ... }], with [GUEST] and [MEMBER] the values bound
    by [import { GUEST, MEMBER } from '../constants/Roles']. *)
Definition createRoleBasedNavbar (GUEST MEMBER : option jsval) (role : option jsval)
    : list nav_link :=
  if js_strict_eq role MEMBER then member_links
  else if js_strict_eq role GUEST then guest_links
  else guest_links.

(** [src/constants/Roles.js]: [const GUEST = 'GUEST'; const MEMBER =
    'MEMBER';], the values the two constants are declared with. *)
Definition Roles_declared : gmap string jsval :=
  <["GUEST" := VStr "GUEST"]> {["MEMBER" := VStr "MEMBER"]}.

(** The state of the [SignIn] page: [{ isFetching, error }], [error] kept
    as the message of the [Error] object. *)
Record signin_page := mk_page { isFetching : bool; error : option string }.

Definition signin_page_init : signin_page := mk_page false None.

(** [this.setState({ isFetching: true, error: null })] *)
Definition onSignIn_start (pg : signin_page) : signin_page := mk_page true None.

(** [.then(() => this.setState({ isFetching: false }))
     .then(() => browserHistory.push('/'))
     .catch(error => this.setState({ isFetching: false, error }))];
    the second component lists the paths pushed to the browser history. *)
Definition onSignIn_settle (pg : signin_page) (st : settlement) : signin_page * list string :=
  match st with
  | Resolved => (mk_page false (error pg), ["/"])
  | Rejected m => (mk_page false (Some m), [])
  end.

(** [SignIn.onSignIn(username, password)] until the promise of
    [this.props.signIn(credentials)] has settled. *)
Definition signIn_flow (s : store) (pg : signin_page) (u p : string)
    : store * signin_page * list string :=
  let pg1 := onSignIn_start pg in
  let eff := run_signIn (mk_credentials u p) in
  let s' := dispatch_all s (dispatched eff) in
  let '(pg2, pushes) := onSignIn_settle pg1 (settled eff) in
  (s', pg2, pushes).

(** [SignInForm]: its state [{ username, password }] and the events it
    handles. *)
Record form_state := mk_form { f_username : string; f_password : string }.

Definition form_init : form_state := mk_form "" "".

Inductive form_event :=
| UsernameChange (v : string)
| PasswordChange (v : string)
| Submit.

(** [handleUsernameChange], [handlePasswordChange] and [onSignIn]; the
    latter calls [this.props.onSignIn(username, password)]. *)
Definition form_step (f : form_state) (e : form_event) : form_state * option (string * string) :=
  match e with
  | UsernameChange v => (mk_form v (f_password f), None)
  | PasswordChange v => (mk_form (f_username f) v, None)
  | Submit => (f, Some (f_username f, f_password f))
  end.

Fixpoint form_run (f : form_state) (evs : list form_event)
    : form_state * list (string * string) :=
  match evs with
  | [] => (f, [])
  | e :: evs' =>
      let '(f1, sub) := form_step f e in
      let '(f2, subs) := form_run f1 evs' in
      (f2, match sub with Some x => x :: subs | None => subs end)
  end.

(** The texts [SignInForm.render] shows above its inputs:
    [{ isFetching && <div>Loading gif</div> }
     { error && <div>{error.message}</div> }] *)
Definition form_messages (pg : signin_page) : list string :=
  app (if isFetching pg then ["Loading gif"] else [])
      (match error pg with Some m => [m] | None => [] end).

(** The shape of the stores the application reaches: the module object
    [InitialUserState] intact and [state.user] one of the two records. *)
Definition good_store (s : store) : Prop :=
  st_heap s !! initial_loc = Some InitialUserState /\
  (st_heap s !! st_user s = Some InitialUserState \/ st_heap s !! st_user s = Some member_user).

(** Actions of other parts of the app do not use the type [SET_USER_DATA]. *)
Definition ok_event (e : event) : Prop :=
  match e with OtherAction a => type a <> SET_USER_DATA | _ => True end.

End App.

Import App.

Example sign_in_then_out_sample :
  user_obj (run_events create_store [SignInAttempt (mk_credentials "a" "b"); SignOutClick])
  = InitialUserState.
Proof. vm_compute. reflexivity. Qed.

(* ===================================================================== *)
(** ** Theorems *)
(* ===================================================================== *)

Section UserDuck.

Lemma alloc_spec (h : heap) (o : obj) :
  h !! (alloc h o).1 = None /\ (alloc h o).2 !! (alloc h o).1 = Some o /\
  (forall l0, l0 <> (alloc h o).1 -> (alloc h o).2 !! l0 = h !! l0).
Proof.
  unfold alloc; simpl. split; [|split].
  - apply not_elem_of_dom. apply is_fresh.
  - apply lookup_insert_eq.
  - intros l0 Hne. by apply lookup_insert_ne.
Qed.

Lemma object_assign_fresh_spec (target : obj) (a : action) (k : string) :
  object_assign_fresh target (userData a) !! k =
  match userData_field a k with Some v => Some v | None => target !! k end.
Proof.
  unfold userData_field, object_assign_fresh.
  destruct (userData a) as [u|]; [|done].
  rewrite lookup_union. destruct (u !! k), (target !! k); done.
Qed.

(** C10. For a state object [l] of the heap: on a [SET_USER_DATA] action
    the reducer returns a freshly allocated object, leaves every existing
    object (the input state included) as it was, and the new object holds
    each property of [action.userData] and, for every other property, the
    value of the input state; on any other action type it returns the input
    state object itself and leaves the heap unchanged. *)
Theorem user_reducer_frame (h : heap) (l : loc) (o : obj) (a : action) :
  h !! l = Some o ->
  (type a = SET_USER_DATA ->
     let r := user_reducer h (Some l) a in
     h !! r.1 = None /\
     (forall l0, l0 <> r.1 -> r.2 !! l0 = h !! l0) /\
     exists o', r.2 !! r.1 = Some o' /\
       (forall k v, userData_field a k = Some v -> o' !! k = Some v) /\
       (forall k, userData_field a k = None -> o' !! k = o !! k)) /\
  (type a <> SET_USER_DATA -> user_reducer h (Some l) a = (l, h)).
Proof.
  intros Hl. split.
  - intros Ht. unfold user_reducer. rewrite Ht, String.eqb_refl, Hl. simpl.
    destruct (alloc_spec h (object_assign_fresh o (userData a))) as (H1 & H2 & H3).
    split; [exact H1|]. split; [exact H3|].
    eexists; split; [exact H2|]. split.
    + intros k v Hk. rewrite object_assign_fresh_spec, Hk. done.
    + intros k Hk. rewrite object_assign_fresh_spec, Hk. done.
  - intros Ht. unfold user_reducer.
    destruct (String.eqb_spec (type a) SET_USER_DATA); [contradiction|done].
Qed.

Lemma user_reducer_frame_witness :
  init_heap !! initial_loc = Some InitialUserState /\
  let a := setUserData member_user in
  (type a = SET_USER_DATA ->
     let r := user_reducer init_heap (Some initial_loc) a in
     init_heap !! r.1 = None /\
     (forall l0, l0 <> r.1 -> r.2 !! l0 = init_heap !! l0) /\
     exists o', r.2 !! r.1 = Some o' /\
       (forall k v, userData_field a k = Some v -> o' !! k = Some v) /\
       (forall k, userData_field a k = None -> o' !! k = InitialUserState !! k)) /\
  (type a <> SET_USER_DATA -> user_reducer init_heap (Some initial_loc) a = (initial_loc, init_heap)).
Proof.
  split; [reflexivity|].
  apply (user_reducer_frame init_heap initial_loc InitialUserState (setUserData member_user)).
  reflexivity.
Defined.

(** C9. Once the 2000 ms timer of [signIn] fires: if the username is
    ['fail'] nothing is dispatched and the promise rejects with
    [Error('Username or password was invalid')]; for any other username
    (the empty one included) exactly [setUserData] of the fixed MEMBER
    record is dispatched and the promise resolves; the outcome does not
    depend on the password. *)
Theorem signIn_rejects_iff_fail (c : credentials) :
  (settled (run_signIn c) = Rejected "Username or password was invalid" <->
   username c = "fail") /\
  (username c = "fail" -> dispatched (run_signIn c) = []) /\
  (username c <> "fail" ->
     run_signIn c = mk_effect [setUserData member_user] Resolved) /\
  (forall pw, run_signIn (mk_credentials (username c) pw) = run_signIn c).
Proof.
  unfold run_signIn, signIn; simpl.
  destruct (String.eqb_spec (username c) "fail") as [E|E]; simpl.
  - repeat split; auto. intros; contradiction.
  - repeat split; auto; try discriminate; try contradiction.
Qed.

Lemma signIn_rejects_iff_fail_witness :
  let c := mk_credentials "" "secret" in
  (settled (run_signIn c) = Rejected "Username or password was invalid" <->
   username c = "fail") /\
  (username c = "fail" -> dispatched (run_signIn c) = []) /\
  (username c <> "fail" ->
     run_signIn c = mk_effect [setUserData member_user] Resolved) /\
  (forall pw, run_signIn (mk_credentials (username c) pw) = run_signIn c).
Proof. exact (signIn_rejects_iff_fail (mk_credentials "" "secret")). Defined.

End UserDuck.

Section OutputNamesProofs.

Local Open Scope string_scope.

Lemma string_length_append (a b : string) :
  String.length (a ++ b) = (String.length a + String.length b)%nat.
Proof. induction a as [|c a IH]; simpl; [done|]. by rewrite IH. Qed.

Lemma string_append_cancel_l (n a b : string) : n ++ a = n ++ b -> a = b.
Proof. induction n as [|c n IH]; simpl; [done|]. intros H. injection H. exact IH. Qed.

Lemma string_append_cancel_r (a b s : string) : a ++ s = b ++ s -> a = b.
Proof.
  revert b. induction a as [|c a IH]; intros [|c' b] H; simpl in *.
  - done.
  - apply (f_equal String.length) in H. simpl in H.
    rewrite ?string_length_append in H. simpl in H. lia.
  - apply (f_equal String.length) in H. simpl in H.
    rewrite ?string_length_append in H. simpl in H. lia.
  - injection H as -> H. f_equal. by apply IH.
Qed.

(** [[name].[hash].js] renders to the chunk name, a dot, the compilation
    hash and [.js]; the chunk id and chunk hash play no part. *)
Lemma render_name_hash_js (pd : path_data) :
  render_path "[name].[hash].js" pd = pd_name pd ++ "." ++ pd_hash pd ++ ".js".
Proof. reflexivity. Qed.

(** C8 (amended). In the development configurations (part1's
    webpack.config.js and config/webpack.development.config.js) every entry
    bundle is named [<name>.<h>.js] with the one compilation hash [h], and
    only the HTML page [index.html] is emitted besides; so whenever the
    compilation hash changes, the name of every entry bundle changes, while
    [index.html] keeps its name. *)
Theorem development_names_share_compilation_hash (cfg : output_config) :
  In cfg [part1_config; development_config] ->
  (forall h ids chs,
     emitted_names cfg h ids chs =
     app (map (fun n => n ++ "." ++ h ++ ".js") (entries cfg)) ["index.html"]) /\
  (forall n i i' h h' c c', h <> h' ->
     render_path (filename cfg) (mk_path_data n i h c) <>
     render_path (filename cfg) (mk_path_data n i' h' c')).
Proof.
  intros Hin.
  assert (Hf : filename cfg = "[name].[hash].js" /\ html_filename cfg = "index.html")
    by (destruct Hin as [<-|[<-|[]]]; split; reflexivity).
  destruct Hf as [Hf Hh]. split.
  - intros h ids chs. unfold emitted_names. rewrite Hf, Hh. f_equal.
  - intros n i i' h h' c c' Hne E. rewrite Hf, !render_name_hash_js in E. simpl in E.
    apply string_append_cancel_l in E. injection E as E.
    apply Hne. by apply (string_append_cancel_r _ _ ".js").
Qed.

Lemma development_names_share_compilation_hash_witness :
  In development_config [part1_config; development_config] /\
  ((forall h ids chs,
     emitted_names development_config h ids chs =
     app (map (fun n => n ++ "." ++ h ++ ".js") (entries development_config)) ["index.html"]) /\
   (forall n i i' h h' c c', h <> h' ->
     render_path (filename development_config) (mk_path_data n i h c) <>
     render_path (filename development_config) (mk_path_data n i' h' c'))).
Proof.
  split; [simpl; auto|].
  apply (development_names_share_compilation_hash development_config). simpl; auto.
Defined.

(** C8 counterexample: not every file a development build emits embeds the
    compilation hash: HtmlWebpackPlugin's [index.html] does not. *)
Lemma development_index_html_has_no_hash :
  ~ (forall f, In f (emitted_names development_config "0123abcd" (fun _ => "0") (fun _ => "ffff")) ->
       contains "0123abcd" f = true).
Proof.
  intros H. specialize (H "index.html"). simpl in H.
  discriminate (H ltac:(auto 10)).
Qed.

End OutputNamesProofs.

Section BuildScriptProofs.

Local Open Scope string_scope.

Lemma under_dist_emitted (n : string) : under_dist ("dist/" ++ n) = true.
Proof. destruct n; reflexivity. Qed.

Lemma rm_rf_dist_lookup (f : fs) (p : string) :
  rm_rf_dist f !! p = if under_dist p then None else f !! p.
Proof.
  unfold rm_rf_dist. rewrite map_lookup_filter.
  destruct (f !! p) as [x|], (under_dist p) eqn:E; simpl; try done;
    case_guard; simpl; congruence.
Qed.

Lemma emit_outside (files : list (string * string)) (f : fs) (p : string) :
  under_dist p = false -> emit f files !! p = f !! p.
Proof.
  revert f. induction files as [|[n c] files IH]; intros f Hp; simpl; [done|].
  unfold emit in IH. rewrite IH by done. apply lookup_insert_ne.
  intros <-. rewrite under_dist_emitted in Hp. discriminate.
Qed.

Lemma emit_inside (files : list (string * string)) (f1 f2 : fs) :
  (forall p, under_dist p = true -> f1 !! p = f2 !! p) ->
  forall p, under_dist p = true -> emit f1 files !! p = emit f2 files !! p.
Proof.
  revert f1 f2. induction files as [|[n c] files IH]; intros f1 f2 Hf; simpl; [done|].
  apply IH. intros p Hp. rewrite !lookup_insert.
  case_decide; [done|]. by apply Hf.
Qed.

(** C5 (amended). The [build:prod] script deletes [./dist] before webpack
    runs, so no earlier artifact survives a run, whatever the run's
    outcome: files outside [dist] are untouched, and afterwards [dist]
    holds exactly the files this webpack run wrote (none, when it wrote
    none). *)
Theorem build_prod_replaces_dist (webpack : fs -> webpack_outcome) (f : fs) :
  (forall p, under_dist p = false -> (build_prod webpack f).1 !! p = f !! p) /\
  (forall p, under_dist p = true ->
     (build_prod webpack f).1 !! p = emit ∅ (written (webpack (rm_rf_dist f))) !! p).
Proof.
  unfold build_prod; simpl. split.
  - intros p Hp. rewrite emit_outside by done. by rewrite rm_rf_dist_lookup, Hp.
  - apply emit_inside. intros p Hp.
    by rewrite rm_rf_dist_lookup, Hp, lookup_empty.
Qed.

Lemma build_prod_replaces_dist_witness :
  let f := <["dist/vendor.1a2b3c4d.js" := "old"]> (<["src/index.js" := "src"]> ∅) in
  let webpack := fun _ : fs => mk_webpack_outcome [("app.5e6f7a8b.js", "new")] 2 in
  (forall p, under_dist p = false -> (build_prod webpack f).1 !! p = f !! p) /\
  (forall p, under_dist p = true ->
     (build_prod webpack f).1 !! p = emit ∅ (written (webpack (rm_rf_dist f))) !! p).
Proof. exact (build_prod_replaces_dist _ _). Defined.

(** C5 counterexample: a published vendor bundle is in [dist]; the next
    [build:prod] run stops at compile errors, writing nothing (exit status
    2), and the previously published bundle is gone. *)
Lemma build_prod_failure_loses_published_artifacts :
  let f := <["dist/vendor.1a2b3c4d.js" := "old"]> (<["src/index.js" := "src"]> ∅) in
  let webpack := fun _ : fs => mk_webpack_outcome [] 2 in
  f !! "dist/vendor.1a2b3c4d.js" = Some "old" /\
  build_prod webpack f = (<["src/index.js" := "src"]> ∅, 2%nat) /\
  (build_prod webpack f).1 !! "dist/vendor.1a2b3c4d.js" = None.
Proof. vm_compute. repeat split. Qed.

End BuildScriptProofs.

Section AppProofs.

Local Open Scope string_scope.

Lemma union_dom_subseteq (u o : obj) : dom o ⊆ dom u -> u ∪ o = u.
Proof.
  intros Hd. apply map_eq. intros k. rewrite lookup_union.
  destruct (u !! k) eqn:Eu, (o !! k) eqn:Eo; simpl; try done.
  exfalso. assert (k ∈ dom o) as Hk by (apply elem_of_dom; eauto).
  apply Hd, elem_of_dom in Hk. rewrite Eu in Hk. by destruct Hk.
Qed.

Lemma dom_member_user : dom member_user = dom InitialUserState.
Proof. reflexivity. Qed.

Lemma dispatch_setUserData (s : store) (o u : obj) :
  st_heap s !! st_user s = Some o ->
  let s' := dispatch s (setUserData u) in
  st_heap s !! st_user s' = None /\
  st_heap s' !! st_user s' = Some (u ∪ o) /\
  (forall l, l <> st_user s' -> st_heap s' !! l = st_heap s !! l).
Proof.
  intros Ho. unfold dispatch, user_reducer. simpl. rewrite Ho.
  apply (alloc_spec (st_heap s) (u ∪ o)).
Qed.

Lemma dispatch_other (s : store) (a : action) :
  type a <> SET_USER_DATA -> dispatch s a = s.
Proof.
  intros Ht. unfold dispatch, user_reducer.
  destruct (String.eqb_spec (type a) SET_USER_DATA); [contradiction|]. by destruct s.
Qed.

Lemma good_dispatch_set (s : store) (u : obj) :
  good_store s -> (u = InitialUserState \/ u = member_user) ->
  good_store (dispatch s (setUserData u)).
Proof.
  intros [Hi Hu] Hu'.
  assert (exists o, st_heap s !! st_user s = Some o /\ dom o = dom u) as (o & Ho & Hd)
    by (destruct Hu as [E|E], Hu' as [->| ->]; eexists; split; eauto;
        rewrite ?dom_member_user; reflexivity).
  destruct (dispatch_setUserData s o u Ho) as (H1 & H2 & H3).
  rewrite union_dom_subseteq in H2 by (rewrite Hd; done).
  split.
  - rewrite H3; [done|]. intros E. rewrite <- E, Hi in H1. discriminate.
  - destruct Hu' as [->| ->]; rewrite H2; auto.
Qed.

Lemma good_event (s : store) (e : event) :
  good_store s -> ok_event e -> good_store (dispatch_all s (event_actions e)).
Proof.
  intros Hs He. destruct e as [c| |a]; simpl.
  - unfold run_signIn, signIn; simpl.
    destruct (negb (String.eqb (username c) "fail")); simpl; [|done].
    apply good_dispatch_set; auto.
  - apply good_dispatch_set; auto.
  - by rewrite dispatch_other.
Qed.

Lemma good_run_events (evs : list event) (s : store) :
  good_store s -> Forall ok_event evs -> good_store (run_events s evs).
Proof.
  revert s. induction evs as [|e evs IH]; intros s Hs Hf; simpl; [done|].
  inversion Hf; subst. apply IH; [|done]. by apply good_event.
Qed.

Lemma good_create_store : good_store create_store.
Proof. split; [reflexivity|left; reflexivity]. Qed.

Lemma reachable_user (evs : list event) :
  Forall ok_event evs ->
  st_heap (run_events create_store evs) !! initial_loc = Some InitialUserState /\
  (user_obj (run_events create_store evs) = InitialUserState \/
   user_obj (run_events create_store evs) = member_user).
Proof.
  intros Hf. destruct (good_run_events evs create_store good_create_store Hf) as [Hi Hu].
  split; [done|]. unfold user_obj. destruct Hu as [E|E]; rewrite E; auto.
Qed.

(** Every store reached from [createStore] by sign-in attempts, sign-outs
    and actions of other types holds, as [state.user], either an object
    equal to [InitialUserState] or one equal to the MEMBER record of
    [signIn], and the module object [InitialUserState] itself is never
    modified. *)
Theorem reachable_user_state (evs : list event) :
  Forall ok_event evs ->
  st_heap (run_events create_store evs) !! initial_loc = Some InitialUserState /\
  (user_obj (run_events create_store evs) = InitialUserState \/
   user_obj (run_events create_store evs) = member_user).
Proof. apply reachable_user. Qed.

Lemma reachable_user_state_witness :
  Forall ok_event [SignInAttempt (mk_credentials "tom" "pw"); OtherAction INIT; SignOutClick] /\
  let s := run_events create_store
             [SignInAttempt (mk_credentials "tom" "pw"); OtherAction INIT; SignOutClick] in
  st_heap s !! initial_loc = Some InitialUserState /\
  (user_obj s = InitialUserState \/ user_obj s = member_user).
Proof.
  assert (Hf : Forall ok_event
    [SignInAttempt (mk_credentials "tom" "pw"); OtherAction INIT; SignOutClick])
    by (repeat constructor; simpl; discriminate).
  split; [exact Hf|]. exact (reachable_user_state _ Hf).
Defined.

(** In every reachable store, the Home page greets the user (with the
    username 'tomjones') exactly when the SignIn page would forward to '/',
    and that happens exactly when [state.user] is the MEMBER record. *)
Theorem home_greets_iff_signin_redirects (evs : list event) :
  Forall ok_event evs ->
  let u := user_obj (run_events create_store evs) in
  home_welcome u = (if signin_redirects u then Some (Some (VStr "tomjones")) else None) /\
  (signin_redirects u = true <-> u = member_user).
Proof.
  intros Hf. destruct (reachable_user evs Hf) as [_ [E|E]]; simpl; rewrite E;
    split; try reflexivity; split; try done.
Qed.

Lemma home_greets_iff_signin_redirects_witness :
  Forall ok_event [SignInAttempt (mk_credentials "tom" "pw")] /\
  let u := user_obj (run_events create_store [SignInAttempt (mk_credentials "tom" "pw")]) in
  home_welcome u = (if signin_redirects u then Some (Some (VStr "tomjones")) else None) /\
  (signin_redirects u = true <-> u = member_user).
Proof.
  assert (Hf : Forall ok_event [SignInAttempt (mk_credentials "tom" "pw")])
    by (repeat constructor).
  split; [exact Hf|]. exact (home_greets_iff_signin_redirects _ Hf).
Defined.

End AppProofs.

Section AppProofs2.

Local Open Scope string_scope.

(** A sign-out never rejects: after its 2000 ms timer it dispatches
    [setUserData(InitialUserState)] and resolves. The store's user object is
    then a new object holding the six [InitialUserState] fields over the old
    object's fields (other fields of the old object survive); no existing
    object is changed; and when the old object has no other fields, the new
    one equals [InitialUserState]. *)
Theorem signOut_resets_user (s : store) (o : obj) :
  st_heap s !! st_user s = Some o ->
  delay signOut = 2000%nat /\ settled run_signOut = Resolved /\
  let s' := dispatch_all s (dispatched run_signOut) in
  user_obj s' = InitialUserState ∪ o /\
  st_heap s !! st_user s' = None /\
  (forall l, l <> st_user s' -> st_heap s' !! l = st_heap s !! l) /\
  (dom o ⊆ dom InitialUserState -> user_obj s' = InitialUserState).
Proof.
  intros Ho. split; [done|]. split; [done|]. simpl.
  destruct (dispatch_setUserData s o InitialUserState Ho) as (H1 & H2 & H3).
  unfold user_obj. rewrite H2. split; [done|]. split; [done|]. split; [done|].
  intros Hd. by rewrite union_dom_subseteq.
Qed.

Lemma signOut_resets_user_witness :
  st_heap create_store !! st_user create_store = Some InitialUserState /\
  (delay signOut = 2000%nat /\ settled run_signOut = Resolved /\
  let s' := dispatch_all create_store (dispatched run_signOut) in
  user_obj s' = InitialUserState ∪ InitialUserState /\
  st_heap create_store !! st_user s' = None /\
  (forall l, l <> st_user s' -> st_heap s' !! l = st_heap create_store !! l) /\
  (dom InitialUserState ⊆ dom InitialUserState -> user_obj s' = InitialUserState)).
Proof.
  split; [reflexivity|]. apply (signOut_resets_user create_store InitialUserState). reflexivity.
Defined.

(** [SignIn.onSignIn] from any page state: once the promise has settled the
    page is no longer fetching. With username ['fail'] the store is
    unchanged, the page holds the error message and nothing is pushed to
    the history; with any other username the page has no error, '/' is
    pushed once, and [state.user] becomes a new object with the MEMBER
    record's fields over the old ones (exactly the MEMBER record when the
    old object has no other fields). *)
Theorem signIn_flow_outcome (s : store) (o : obj) (pg : signin_page) (u p : string) :
  st_heap s !! st_user s = Some o ->
  let r := signIn_flow s pg u p in
  isFetching r.1.2 = false /\
  (u = "fail" -> r.1.1 = s /\ error r.1.2 = Some "Username or password was invalid" /\ r.2 = []) /\
  (u <> "fail" -> error r.1.2 = None /\ r.2 = ["/"] /\
     user_obj r.1.1 = member_user ∪ o /\
     (dom o ⊆ dom member_user -> user_obj r.1.1 = member_user)).
Proof.
  intros Ho. unfold signIn_flow, run_signIn, signIn. simpl.
  destruct (String.eqb_spec u "fail") as [->|Hu]; simpl.
  - repeat split; intros; done.
  - destruct (dispatch_setUserData s o member_user Ho) as (_ & H2 & _).
    split; [done|]. split; [intros; contradiction|]. intros _.
    unfold user_obj. rewrite H2. repeat split; [].
    intros Hd. by rewrite union_dom_subseteq.
Qed.

Lemma signIn_flow_outcome_witness :
  st_heap create_store !! st_user create_store = Some InitialUserState /\
  let r := signIn_flow create_store signin_page_init "tom" "pw" in
  isFetching r.1.2 = false /\
  ("tom" = "fail" -> r.1.1 = create_store /\
     error r.1.2 = Some "Username or password was invalid" /\ r.2 = []) /\
  ("tom" <> "fail" -> error r.1.2 = None /\ r.2 = ["/"] /\
     user_obj r.1.1 = member_user ∪ InitialUserState /\
     (dom InitialUserState ⊆ dom member_user -> user_obj r.1.1 = member_user)).
Proof.
  split; [reflexivity|].
  apply (signIn_flow_outcome create_store InitialUserState signin_page_init). reflexivity.
Defined.

Lemma form_run_app (f : form_state) (evs evs' : list form_event) :
  form_run f (app evs evs') =
  let '(f1, s1) := form_run f evs in
  let '(f2, s2) := form_run f1 evs' in (f2, app s1 s2).
Proof.
  revert f. induction evs as [|e evs IH]; intros f; simpl.
  - by destruct (form_run f evs').
  - destruct (form_step f e) as [f1 sub]. rewrite IH.
    destruct (form_run f1 evs) as [f2 s2]. destruct (form_run f2 evs') as [f3 s3].
    by destruct sub.
Qed.

(** [SignInForm] submits the values last typed: after any events, a submit
    adds exactly one call [onSignIn(username, password)] with the current
    field values and leaves the fields as they are. *)
Theorem form_submit_latest (f : form_state) (evs : list form_event) :
  form_run f (app evs [Submit]) =
  ((form_run f evs).1,
   app (form_run f evs).2 [(f_username (form_run f evs).1, f_password (form_run f evs).1)]).
Proof. rewrite form_run_app. by destruct (form_run f evs). Qed.

(** The sign-in screen end to end: typing a username [u] and a password
    [p] and submitting calls [onSignIn(u, p)]; while the promise is pending
    the form shows only 'Loading gif'; once it settles the form shows the
    message 'Username or password was invalid' when [u] is ['fail'] and
    nothing otherwise. *)
Theorem signin_screen_messages (s : store) (pg : signin_page) (u p : string) :
  form_run form_init [UsernameChange u; PasswordChange p; Submit] = (mk_form u p, [(u, p)]) /\
  form_messages (onSignIn_start pg) = ["Loading gif"] /\
  form_messages (signIn_flow s pg u p).1.2 =
    (if String.eqb u "fail" then ["Username or password was invalid"] else []).
Proof.
  split; [done|]. split; [done|].
  unfold signIn_flow, run_signIn, signIn. simpl.
  by destruct (String.eqb u "fail").
Qed.

(** The navbar with the role constants' declared values ('GUEST',
    'MEMBER'): it shows 'Home' and 'Sign Out' for the role 'MEMBER' and
    'Home', 'Register' and 'Sign In' for any other role value, an unknown
    one or a missing one included; the value of the [GUEST] constant plays
    no part. *)
Theorem navbar_by_role (g : option jsval) (role : option jsval) :
  createRoleBasedNavbar (Roles_declared !! "GUEST") (Roles_declared !! "MEMBER") role =
    (if js_strict_eq role (Some (VStr "MEMBER")) then member_links else guest_links) /\
  createRoleBasedNavbar g (Roles_declared !! "MEMBER") role =
  createRoleBasedNavbar (Roles_declared !! "GUEST") (Roles_declared !! "MEMBER") role.
Proof.
  assert (Hm : Roles_declared !! "MEMBER" = Some (VStr "MEMBER")) by reflexivity.
  unfold createRoleBasedNavbar. rewrite Hm.
  destruct (js_strict_eq role (Some (VStr "MEMBER"))); [done|].
  split; repeat case_match; done.
Qed.

(** With the production template [[name].[chunkHash:8].js], an entry
    bundle is named [<name>.<first 8 characters of the chunk hash>.js]:
    the compilation hash and the chunk id play no part, and two builds
    name a chunk alike exactly when its chunk hashes agree on their first
    8 characters. *)
Theorem production_names_chunkhash (n i i' h h' c c' : string) :
  render_path (filename production_config) (mk_path_data n i h c) =
    n ++ "." ++ substring 0 8 c ++ ".js" /\
  (render_path (filename production_config) (mk_path_data n i h c) =
   render_path (filename production_config) (mk_path_data n i' h' c') <->
   substring 0 8 c = substring 0 8 c').
Proof.
  assert (Hr : forall i h c, render_path (filename production_config) (mk_path_data n i h c) =
                        n ++ "." ++ substring 0 8 c ++ ".js") by reflexivity.
  split; [apply Hr|]. rewrite !Hr. split.
  - intros E. apply string_append_cancel_l in E. simpl in E. injection E as E.
    by apply (string_append_cancel_r _ _ ".js").
  - by intros ->.
Qed.

Lemma rm_rf_dist_build_prod (webpack : fs -> webpack_outcome) (f : fs) :
  rm_rf_dist (build_prod webpack f).1 = rm_rf_dist f.
Proof.
  apply map_eq. intros p. rewrite !rm_rf_dist_lookup.
  destruct (under_dist p) eqn:Hp; [done|].
  unfold build_prod; simpl. by rewrite emit_outside, rm_rf_dist_lookup, Hp.
Qed.

(** Running [build:prod] again on the tree a run left behind gives the
    same tree and the same exit status: the second run deletes what the
    first wrote to [dist] and starts webpack from the same files. *)
Theorem build_prod_idempotent (webpack : fs -> webpack_outcome) (f : fs) :
  build_prod webpack (build_prod webpack f).1 = build_prod webpack f.
Proof.
  unfold build_prod at 1. rewrite rm_rf_dist_build_prod. reflexivity.
Qed.

End AppProofs2.
